(** * Machine-readable data formats: the notebook's extraction and validation code

    A shallow embedding of the code cells of
    [notebook_with_examples/tabular_data_examples.ipynb] that carry logic of
    their own:

    - the loop that turns the first table of a DOCX document into a list of
      records (section 1.2 of the notebook);
    - the [validate] function and the two validation cells of section 2.3
      (XSD through [validate], internal DTD through a validating parser);
    - the CSV export of the table read from the PDF (section 1.1).

    Python dictionaries are finite maps from stdpp and Python exceptions are
    an error monad.  The calls into [lxml] are kept behind the interface the
    notebook uses; the CSV writer that [to_csv] drives is written out with its
    quoting rule. *)

From Stdlib Require Import Ascii String ZArith.
From stdpp Require Import gmap strings list fin_maps.

Open Scope string_scope.

(** ** Python outcomes: a value or a raised exception *)

Inductive exn : Type :=
  | TypeError (msg : string)
  | OSError (msg : string)
  | XMLSyntaxError (msg : string)
  | XMLSchemaParseError (msg : string).

Inductive outcome (A : Type) : Type :=
  | Ok (a : A)
  | Raise (e : exn).
Arguments Ok {A} a.
Arguments Raise {A} e.

#[global] Instance outcome_ret : MRet outcome := λ A a, Ok a.
#[global] Instance outcome_bind : MBind outcome := λ A B f m,
  match m with
  | Ok a => f a
  | Raise e => Raise e
  end.

(** A [for] loop over a list whose body may raise: the state is threaded
    through the iterations and the first exception ends the loop. *)
Fixpoint for_each {S A : Type} (body : S → A → outcome S) (st : S) (l : list A)
  : outcome S :=
  match l with
  | [] => Ok st
  | x :: l' => st' ← body st x; for_each body st' l'
  end.

(** [enumerate(l)], counting from [start]. *)
Fixpoint enumerate_from {A : Type} (start : nat) (l : list A) : list (nat * A) :=
  match l with
  | [] => []
  | x :: l' => (start, x) :: enumerate_from (S start) l'
  end.

Definition enumerate {A : Type} (l : list A) : list (nat * A) := enumerate_from 0 l.

(** ** Section 1.2: the table of a DOCX document *)

Module Docx.

(** What python-docx exposes of a table: [table.rows], [row.cells], [cell.text]. *)
Record Cell : Type := { text : string }.
Record Row : Type := { cells : list Cell }.
Record Table : Type := { rows : list Row }.

(** [dict(pairs)]: the pairs are stored from left to right, and a key that
    comes again takes the later value. *)
Definition dict (pairs : list (string * string)) : gmap string string :=
  foldl (λ d kv, <[kv.1 := kv.2]> d) ∅ pairs.

(** [(cell.text for cell in row.cells)], read once from left to right. *)
Definition cell_texts (row : Row) : list string := text <$> cells row.

(** The loop variables [keys] (first [None]) and [data]. *)
Record loop_state : Type := { keys : option (list string); data : list (gmap string string) }.

(** One iteration of [for i, row in enumerate(table.rows)].  [zip(None, text)]
    raises a [TypeError]; the loop only reaches it if no row came first. *)
Definition loop_body (st : loop_state) (ir : nat * Row) : outcome loop_state :=
  let text := cell_texts ir.2 in
  if decide (ir.1 = 0) then
    Ok {| keys := Some text; data := data st |}
  else
    match keys st with
    | None => Raise (TypeError "'NoneType' object is not iterable")
    | Some ks =>
        let row_data := dict (zip ks text) in
        Ok {| keys := keys st; data := data st ++ [row_data] |}
    end.

(** The extraction cell: the records collected in [data] when the loop ends. *)
Definition extract_table (table : Table) : outcome (list (gmap string string)) :=
  st ← for_each loop_body {| keys := None; data := [] |} (enumerate (rows table));
  Ok (data st).

(** The record the loop builds for one data row under a header row. *)
Definition row_record (header row : Row) : gmap string string :=
  dict (zip (cell_texts header) (cell_texts row)).

End Docx.

(** ** Section 2.3: validating an XML document *)

Module Xml.

(** [etree.XMLParser(dtd_validation=...)]; a parser made without arguments
    does not validate. *)
Record XMLParser : Type := { dtd_validation : bool }.

Definition default_parser : XMLParser := {| dtd_validation := false |}.

(** The part of [lxml.etree] the notebook calls.  A path is parsed against
    the files present when the cell runs; each call either returns or raises. *)
Class Lxml : Type := {
  ElementTree : Type;
  XMLSchema : Type;
  (** [etree.parse(path, parser)] *)
  etree_parse : string → XMLParser → outcome ElementTree;
  (** [etree.XMLSchema(doc)] *)
  etree_XMLSchema : ElementTree → outcome XMLSchema;
  (** [schema.validate(doc)] *)
  XMLSchema_validate : XMLSchema → ElementTree → bool
}.

(** What running a validator leaves to look at: a boolean, a parsed tree,
    or the exception that ended it. *)
Inductive result `{Lxml} : Type :=
  | Boolean (b : bool)
  | Tree (t : ElementTree)
  | Exception (e : exn).

Section Validators.
Context `{Lxml}.

(** [def validate(xml_path: str, xsd_path: str) -> bool] *)
Definition validate (xml_path xsd_path : string) : outcome bool :=
  xmlschema_doc ← etree_parse xsd_path default_parser;
  xmlschema ← etree_XMLSchema xmlschema_doc;
  xml_doc ← etree_parse xml_path default_parser;
  let result := XMLSchema_validate xmlschema xml_doc in
  Ok result.

(** The cell that calls [validate] and prints the verdict. *)
Definition validation_cell (xml_path xsd_path : string) : outcome (list string) :=
  b ← validate xml_path xsd_path;
  Ok [if b : bool then "Valid!" else "Not valid!"].

(** The cell that checks a document against its internal DTD:
    [parser = etree.XMLParser(dtd_validation=True)] and
    [tree = etree.parse(path, parser)]. *)
Definition dtd_validation_cell (path : string) : outcome ElementTree :=
  let parser := {| dtd_validation := true |} in
  tree ← etree_parse path parser;
  Ok tree.

Definition validate_result (xml_path xsd_path : string) : result :=
  match validate xml_path xsd_path with
  | Ok b => Boolean b
  | Raise e => Exception e
  end.

Definition dtd_validation_result (path : string) : result :=
  match dtd_validation_cell path with
  | Ok t => Tree t
  | Raise e => Exception e
  end.

End Validators.

End Xml.

(** *** An in-memory instance of the interface

    Enough of an XML library to run the cells on concrete files: documents
    are element trees with an optional internal DTD, a schema document lists
    the child elements its root element requires, and files live in a table
    keyed by path. *)

Module InMemory.

#[warnings="-register-all"]
Inductive element : Type :=
  | Element (tag : string) (attrs : list (string * string)) (children : list element).

Definition tag_of (e : element) : string := let 'Element t _ _ := e in t.
Definition attrs_of (e : element) : list (string * string) := let 'Element _ a _ := e in a.
Definition children_of (e : element) : list element := let 'Element _ _ c := e in c.

Fixpoint assoc {V : Type} (k : string) (l : list (string * V)) : option V :=
  match l with
  | [] => None
  | (k', v) :: l' => if decide (k = k') then Some v else assoc k l'
  end.

(** [<!DOCTYPE root [ <!ELEMENT root (c1, c2, ...)> ... ]>] *)
Record doctype : Type := { dt_root : string; dt_children : list string }.

Record document : Type := { dtd : option doctype; root : element }.

Inductive file : Type :=
  | WellFormed (d : document)
  | NotWellFormed.

Definition dtd_accepts (dt : doctype) (e : element) : bool :=
  bool_decide (tag_of e = dt_root dt)
  && bool_decide (tag_of <$> children_of e = dt_children dt).

Definition parse (files : list (string * file)) (path : string) (parser : Xml.XMLParser)
  : outcome document :=
  match assoc path files with
  | None => Raise (OSError path)
  | Some NotWellFormed => Raise (XMLSyntaxError "document is not well-formed")
  | Some (WellFormed d) =>
      if Xml.dtd_validation parser then
        match dtd d with
        | None => Raise (XMLSyntaxError "Validation failed: no DTD found")
        | Some dt =>
            if dtd_accepts dt (root d) then Ok d
            else Raise (XMLSyntaxError "document does not follow its DTD")
        end
      else Ok d
  end.

(** A compiled schema: the root element's name and the child elements it
    requires, in order. *)
Record schema : Type := { root_name : string; required : list string }.

Definition element_names (decls : list element) : list string :=
  omap (λ e, if decide (tag_of e = "xs:element") then assoc "name" (attrs_of e) else None) decls.

Definition xs_namespace : string := "http://www.w3.org/2001/XMLSchema".

(** [<xs:schema xmlns:xs=...><xs:element name=R><xs:complexType><xs:sequence>
    <xs:element name=c1/> ...] *)
Definition compile (d : document) : outcome schema :=
  match root d with
  | Element "xs:schema" ns
      [Element "xs:element" attrs
        [Element "xs:complexType" _ [Element "xs:sequence" _ decls]]] =>
      if decide (assoc "xmlns:xs" ns = Some xs_namespace) then
        match assoc "name" attrs with
        | Some r => Ok {| root_name := r; required := element_names decls |}
        | None => Raise (XMLSchemaParseError "element declaration without a name")
        end
      else Raise (XMLSchemaParseError "not a schema document")
  | _ => Raise (XMLSchemaParseError "not a schema document")
  end.

Definition conforms (s : schema) (d : document) : bool :=
  bool_decide (tag_of (root d) = root_name s)
  && bool_decide (tag_of <$> children_of (root d) = required s).

Definition lxml (files : list (string * file)) : Xml.Lxml := {|
  Xml.ElementTree := document;
  Xml.XMLSchema := schema;
  Xml.etree_parse := parse files;
  Xml.etree_XMLSchema := compile;
  Xml.XMLSchema_validate := conforms
|}.

(** A leaf element holding character data only. *)
Definition leaf (tag : string) : element := Element tag [] [].

(** Files in the shape of the notebook's [data] folder, cut down to three
    columns: the schema, a row that follows it, a row without its [key]
    element, the two rows again with an internal DTD, and a file that is
    not XML. *)
Definition row_columns : list string := ["catalogue_id"; "key"; "scientific_name"].

Definition data_xsd : document := {|
  dtd := None;
  root := Element "xs:schema" [("xmlns:xs", xs_namespace)]
    [Element "xs:element" [("name", "row")]
      [Element "xs:complexType" []
        [Element "xs:sequence" []
          ((λ c, Element "xs:element" [("name", c); ("type", "xs:string")] [])
             <$> row_columns)]]]
|}.

Definition full_row : element := Element "row" [] (leaf <$> row_columns).
Definition row_without_key : element :=
  Element "row" [] [leaf "catalogue_id"; leaf "scientific_name"].

Definition row_dtd : doctype := {| dt_root := "row"; dt_children := row_columns |}.

Definition data_folder : list (string * file) := [
  ("data.xsd", WellFormed data_xsd);
  ("dataset_snippet.xml", WellFormed {| dtd := None; root := full_row |});
  ("dataset_snippet_without_key.xml", WellFormed {| dtd := None; root := row_without_key |});
  ("dataset_snippet_with_dtd.xml", WellFormed {| dtd := Some row_dtd; root := full_row |});
  ("dataset_snippet_without_key_with_dtd.xml",
     WellFormed {| dtd := Some row_dtd; root := row_without_key |});
  ("notes.txt", NotWellFormed)
].

End InMemory.

(** ** Section 1.1: saving the table read from the PDF as CSV *)

Module Csv.

Definition CR : ascii := "013"%char.
Definition LF : ascii := "010"%char.
Definition COMMA : ascii := ","%char.
Definition DQUOTE : ascii := "034"%char.

(** A frame of text cells, as the PDF extraction returns it. *)
Record DataFrame : Type := { columns : list string; values : list (list string) }.

(** [DataFrame.to_csv] hands every row to Python's [csv.writer] with minimal
    quoting and the platform's line separator as line terminator. *)
Section Writer.
Variables (delimiter quotechar : ascii) (lineterminator : string).

(** The characters that make the writer quote a field. *)
Definition special (c : ascii) : bool :=
  bool_decide (c = delimiter) || bool_decide (c = quotechar)
  || bool_decide (c ∈ list_ascii_of_string lineterminator).

Fixpoint double_quotes (s : string) : string :=
  match s with
  | EmptyString => EmptyString
  | String c s' =>
      if decide (c = quotechar) then String c (String c (double_quotes s'))
      else String c (double_quotes s')
  end.

Definition write_field (field : string) : string :=
  if existsb special (list_ascii_of_string field)
  then String quotechar (double_quotes field +:+ String quotechar EmptyString)
  else field.

(** A row made of one empty field is written as an empty quoted field. *)
Definition writerow (fields : list string) : string :=
  match String.concat (String delimiter EmptyString) (write_field <$> fields), fields with
  | EmptyString, _ :: _ => String quotechar (String quotechar lineterminator)
  | line, _ => line +:+ lineterminator
  end.
End Writer.

(** [df.to_csv(path, index=False)]: the header line, then one line per row. *)
Definition to_csv (lineterminator : string) (df : DataFrame) : string :=
  String.concat EmptyString
    (writerow COMMA DQUOTE lineterminator <$> (columns df :: values df)).

(** How a CSV reader cuts a text into records: outside quotes a carriage
    return, a line feed or the pair of them ends the record; inside quotes
    they are data.  [push c] puts a character in front of the record being
    read. *)
Definition push (c : ascii) (records : list string) : list string :=
  match records with
  | [] => [String c EmptyString]
  | r :: records' => String c r :: records'
  end.

Fixpoint split_records (quoted : bool) (s : string) : list string :=
  match s with
  | EmptyString => []
  | String c s' =>
      if decide (c = DQUOTE) then push c (split_records (negb quoted) s')
      else if quoted then push c (split_records quoted s')
      else if decide (c = LF) then EmptyString :: split_records false s'
      else if decide (c = CR) then
        EmptyString ::
          match s' with
          | String c' s'' =>
              if decide (c' = LF) then split_records false s''
              else split_records false s'
          | EmptyString => []
          end
      else push c (split_records quoted s')
  end.



(** The data records a reader finds: every record after the header line. *)
Definition records_read (text : string) : list string :=
  tail (split_records false text).

(** The line separator of a POSIX platform. *)
Definition posix_linesep : string := String LF EmptyString.

(** Characters that neither quote, separate nor end a record. *)
Definition plain (c : ascii) : Prop := c ≠ DQUOTE ∧ c ≠ COMMA ∧ c ≠ CR ∧ c ≠ LF.

Definition plain_text (s : string) : Prop := Forall plain (list_ascii_of_string s).



End Csv.

(** ** The cells written with Python's built-in types only

    The text cells of sections 1.2 and 2.2 and the JSON cell of section 2.4
    call no library: they use list, string, dictionary and set operations,
    each of which returns or raises one of the built-in exceptions below. *)

Module Py.

Inductive error : Type :=
  | IndexError (msg : string)
  | KeyError (key : string)
  | AttributeError (msg : string)
  | TypeError (msg : string)
  | ValueError (msg : string).

Inductive run (A : Type) : Type :=
  | Returns (a : A)
  | Raises (e : error).
Arguments Returns {A} a.
Arguments Raises {A} e.

#[global] Instance run_ret : MRet run := λ A a, Returns a.
#[global] Instance run_bind : MBind run := λ A B f m,
  match m with
  | Returns a => f a
  | Raises e => Raises e
  end.

(** [l[i]] for an index that is not negative. *)
Definition getitem {A : Type} (l : list A) (i : nat) : run A :=
  match l !! i with
  | Some x => Returns x
  | None => Raises (IndexError "list index out of range")
  end.

(** [l.pop(i)] for an index that is not negative: the item taken out and the
    list that is left.  An empty list is refused before the index is looked
    at. *)
Definition pop {A : Type} (l : list A) (i : nat) : run (A * list A) :=
  match l with
  | [] => Raises (IndexError "pop from empty list")
  | _ :: _ =>
      match l !! i with
      | Some x => Returns (x, delete i l)
      | None => Raises (IndexError "pop index out of range")
      end
  end.

(** [sep.join(l)] *)
Definition join (sep : string) (l : list string) : string := String.concat sep l.

(** The rest of [s] behind [p], when [s] starts with [p]. *)
Fixpoint strip_prefix (p s : string) : option string :=
  match p, s with
  | EmptyString, _ => Some s
  | String a p', String b s' => if decide (a = b) then strip_prefix p' s' else None
  | String _ _, EmptyString => None
  end.

(** The text before and behind the first place where [sep] stands in [s],
    searching from the left. *)
Fixpoint find_split (sep s : string) : option (string * string) :=
  match strip_prefix sep s with
  | Some rest => Some (EmptyString, rest)
  | None =>
      match s with
      | EmptyString => None
      | String c s' =>
          match find_split sep s' with
          | Some (before, rest) => Some (String c before, rest)
          | None => None
          end
      end
  end.

(** [s.split(sep, 1)] *)
Definition split1 (s sep : string) : run (list string) :=
  if decide (sep = EmptyString) then Raises (ValueError "empty separator")
  else
    match find_split sep s with
    | Some (before, rest) => Returns [before; rest]
    | None => Returns [s]
    end.

(** [s.partition(sep)] *)
Definition partition (s sep : string) : run (string * string * string) :=
  if decide (sep = EmptyString) then Raises (ValueError "empty separator")
  else
    match find_split sep s with
    | Some (before, rest) => Returns (before, sep, rest)
    | None => Returns (s, EmptyString, EmptyString)
    end.

(** [sep] stands in [s] with [i] characters before it. *)
Definition occurs_at (sep : string) (i : nat) (s : string) : Prop :=
  ∃ before rest, s = before +:+ sep +:+ rest ∧ String.length before = i.

Definition occurs (sep s : string) : Prop := ∃ i, occurs_at sep i s.

End Py.

(** *** Section 1.2: the text of the DOCX document *)

Module DocxText.

(** What [Document(path).iter_inner_content()] yields: paragraphs, which
    have a [text], and tables, which have none. *)
Inductive block : Type :=
  | Paragraph (text : string)
  | TableBlock (table : Docx.Table).

(** [p.text] *)
Definition block_text (p : block) : Py.run string :=
  match p with
  | Paragraph text => Py.Returns text
  | TableBlock _ => Py.Raises (Py.AttributeError "'Table' object has no attribute 'text'")
  end.

(** The three cells that list the document's blocks, take out the one at
    position 17 and join the text of the others, one per line. *)
Definition text_content (content : list block) : Py.run string :=
  let docx_list := content in
  popped ← Py.pop docx_list 17;
  let docx_list := popped.2 in
  texts ← mapM block_text docx_list;
  Py.Returns (Py.join (String Csv.LF EmptyString) texts).

End DocxText.

(** *** Section 2.2: the dataset description cut out of the plain text *)

Module Txt.

(** The cell that cuts the text between the headings [Dataset Description]
    and [Keywords] out of [content]. *)
Definition dataset_description (content : string) : Py.run string :=
  let partition1 := "Dataset Description" in
  words ← Py.partition content partition1;
  parts ← Py.split1 content partition1;
  words_after_heading1 ← Py.getitem parts 1;
  let partition2 := "Keywords" in
  parts ← Py.split1 words_after_heading1 partition2;
  words_before_heading2 ← Py.getitem parts 0;
  Py.Returns words_before_heading2.

End Txt.

(** *** Section 2.4: the unique catalogue identifiers of the JSON data *)

Module Json.

(** What [json.load] returns.  Numbers are the integers; a number written
    with a fraction or an exponent is a float in Python and is left out. *)
#[warnings="-register-all"]
Inductive value : Type :=
  | JNone
  | JBool (b : bool)
  | JInt (n : Z)
  | JStr (s : string)
  | JList (items : list value)
  | JDict (items : list (string * value)).

(** A dictionary's keys in the order they were first stored, and the value
    stored last under a key. *)
Fixpoint dict_keys (items : list (string * value)) (seen : list string) : list string :=
  match items with
  | [] => []
  | (k, _) :: items' =>
      if decide (k ∈ seen) then dict_keys items' seen
      else k :: dict_keys items' (k :: seen)
  end.

Fixpoint dict_get (key : string) (items : list (string * value)) : option value :=
  match items with
  | [] => None
  | (k, v) :: items' =>
      match dict_get key items' with
      | Some v' => Some v'
      | None => if decide (k = key) then Some v else None
      end
  end.

Fixpoint characters (s : string) : list string :=
  match s with
  | EmptyString => []
  | String c s' => String c EmptyString :: characters s'
  end.

(** [for el in v]: the elements the loop goes through. *)
Definition iterate (v : value) : Py.run (list value) :=
  match v with
  | JList items => Py.Returns items
  | JDict items => Py.Returns (JStr <$> dict_keys items [])
  | JStr s => Py.Returns (JStr <$> characters s)
  | JNone => Py.Raises (Py.TypeError "'NoneType' object is not iterable")
  | JBool _ => Py.Raises (Py.TypeError "'bool' object is not iterable")
  | JInt _ => Py.Raises (Py.TypeError "'int' object is not iterable")
  end.

(** [el[key]] for a string [key]. *)
Definition subscript (el : value) (key : string) : Py.run value :=
  match el with
  | JDict items =>
      match dict_get key items with
      | Some v => Py.Returns v
      | None => Py.Raises (Py.KeyError key)
      end
  | JList _ => Py.Raises (Py.TypeError "list indices must be integers or slices, not str")
  | JStr _ => Py.Raises (Py.TypeError "string indices must be integers, not 'str'")
  | JNone => Py.Raises (Py.TypeError "'NoneType' object is not subscriptable")
  | JBool _ => Py.Raises (Py.TypeError "'bool' object is not subscriptable")
  | JInt _ => Py.Raises (Py.TypeError "'int' object is not subscriptable")
  end.

(** What a set keeps of a value: values that compare equal in Python
    ([True] and [1], [False] and [0]) are one member. *)
Inductive member : Type :=
  | MNone
  | MInt (n : Z)
  | MStr (s : string).

#[global] Instance member_eq_dec : EqDecision member.
Proof. solve_decision. Defined.

#[global] Instance member_countable : Countable member.
Proof.
  refine (inj_countable'
    (λ m, match m with MNone => inl () | MInt n => inr (inl n) | MStr s => inr (inr s) end)
    (λ x, match x with inl _ => MNone | inr (inl n) => MInt n | inr (inr s) => MStr s end) _).
  by intros [].
Defined.

(** Hashing a value for a set: lists and dictionaries cannot be hashed. *)
Definition hashed (v : value) : Py.run member :=
  match v with
  | JNone => Py.Returns MNone
  | JBool b => Py.Returns (MInt (if b then 1 else 0))
  | JInt n => Py.Returns (MInt n)
  | JStr s => Py.Returns (MStr s)
  | JList _ => Py.Raises (Py.TypeError "unhashable type: 'list'")
  | JDict _ => Py.Raises (Py.TypeError "unhashable type: 'dict'")
  end.

(** The body of [for el in json_data]: [cat_id_list.append(el["catalogue_id"])]. *)
Definition append_catalogue_id (cat_id_list : list value) (el : value)
  : Py.run (list value) :=
  v ← subscript el "catalogue_id";
  Py.Returns (cat_id_list ++ [v])%list.

Fixpoint loop {S A : Type} (body : S → A → Py.run S) (st : S) (l : list A) : Py.run S :=
  match l with
  | [] => Py.Returns st
  | x :: l' => st' ← body st x; loop body st' l'
  end.

(** The cell: the number it prints. *)
Definition unique_catalogue_ids (json_data : value) : Py.run nat :=
  let cat_id_list := [] in
  els ← iterate json_data;
  cat_id_list ← loop append_catalogue_id cat_id_list els;
  members ← mapM hashed cat_id_list;
  let unique_cat_id_list := elements (list_to_set members : gset member) in
  Py.Returns (length unique_cat_id_list).

End Json.

(** *** Small inputs on which the cells are run *)

Module Samples.

Definition birds_header : Docx.Row :=
  {| Docx.cells := [ {| Docx.text := "catalogue_id" |}; {| Docx.text := "genus" |} ] |}.

Definition birds_body : list Docx.Row :=
  [ {| Docx.cells := [ {| Docx.text := "ZMB_1" |}; {| Docx.text := "Corvus" |} ] |};
    {| Docx.cells := [ {| Docx.text := "ZMB_2" |}; {| Docx.text := "Pica" |} ] |} ].

(** A header whose first cell was merged over two columns. *)
Definition merged_header : Docx.Row :=
  {| Docx.cells := [ {| Docx.text := "name" |}; {| Docx.text := "name" |};
                     {| Docx.text := "genus" |} ] |}.

Definition sample_text : string :=
  "Birds of Berlin. Dataset Description Mounted specimens. Keywords bird, museum".

(** Three images of two specimens. *)
Definition three_images : list Json.value :=
  [Json.JDict [("catalogue_id", Json.JStr "ZMB_1"); ("key", Json.JStr "a")];
   Json.JDict [("catalogue_id", Json.JStr "ZMB_1"); ("key", Json.JStr "b")];
   Json.JDict [("key", Json.JStr "c"); ("catalogue_id", Json.JStr "ZMB_2")]].

End Samples.

(** * Properties *)

(** ** The DOCX extraction loop *)

Import Docx.

Section DocxFacts.
Implicit Types (ks vs : list string) (d : gmap string string)
  (pairs : list (string * string)) (header row : Row) (body : list Row).

Lemma dict_snoc pairs k v : dict (pairs ++ [(k, v)]) = <[k := v]> (dict pairs).
Proof. unfold dict. by rewrite foldl_app. Qed.

Lemma dom_dict pairs : dom (dict pairs) = (list_to_set pairs.*1 : gset string).
Proof.
  induction pairs as [|[k v] pairs IH] using rev_ind.
  - unfold dict; simpl. by rewrite dom_empty_L.
  - rewrite dict_snoc, dom_insert_L, IH, fmap_app, list_to_set_app_L; simpl.
    by rewrite (right_id_L ∅ (∪)), (comm_L (∪)).
Qed.

Lemma size_dict pairs : (size (dict pairs) ≤ length pairs)%nat.
Proof.
  induction pairs as [|[k v] pairs IH] using rev_ind.
  - unfold dict; simpl. by rewrite map_size_empty.
  - rewrite dict_snoc, map_size_insert, length_app. simpl.
    destruct (dict pairs !! k); simpl; lia.
Qed.

Lemma dict_lookup_last pairs k v rest :
  k ∉ rest.*1 → dict (pairs ++ (k, v) :: rest) !! k = Some v.
Proof.
  induction rest as [|[k' v'] rest IH] using rev_ind; intros Hk.
  - rewrite dict_snoc. apply lookup_insert_eq.
  - rewrite app_comm_cons, app_assoc, dict_snoc.
    rewrite fmap_app, not_elem_of_app in Hk. destruct Hk as [Hrest Hk'].
    rewrite lookup_insert_ne by (intros ->; apply Hk'; simpl; left).
    by apply IH.
Qed.

Lemma fst_zip_take ks vs : (zip ks vs).*1 = take (length vs) ks.
Proof.
  revert vs. induction ks as [|k ks IH]; intros [|v vs]; simpl; try done.
  by rewrite IH.
Qed.

Lemma zip_take_l ks vs : zip (take (length vs) ks) vs = zip ks vs.
Proof.
  revert vs. induction ks as [|k ks IH]; intros [|v vs]; simpl; try done.
  by rewrite IH.
Qed.

Lemma zip_take_r ks vs : zip ks (take (length ks) vs) = zip ks vs.
Proof.
  revert vs. induction ks as [|k ks IH]; intros [|v vs]; simpl; try done.
  by rewrite IH.
Qed.

Lemma length_zip ks vs : length (zip ks vs) = length ks `min` length vs.
Proof.
  revert vs. induction ks as [|k ks IH]; intros [|v vs]; simpl; try done.
  by rewrite IH.
Qed.

Lemma length_cell_texts row : length (cell_texts row) = length (cells row).
Proof. unfold cell_texts. apply length_fmap. Qed.

(** Once [keys] is set, every further iteration appends one record. *)
Lemma loop_after_header ks body acc n :
  for_each loop_body {| keys := Some ks; data := acc |} (enumerate_from (S n) body)
  = Ok {| keys := Some ks;
          data := acc ++ ((λ row, dict (zip ks (cell_texts row))) <$> body) |}.
Proof.
  revert acc n. induction body as [|row body IH]; intros acc n; simpl.
  - by rewrite app_nil_r.
  - unfold loop_body at 1; simpl. rewrite IH. by rewrite <- app_assoc.
Qed.

Lemma extract_table_cons header body :
  extract_table {| rows := header :: body |} = Ok (row_record header <$> body).
Proof.
  unfold extract_table, enumerate; simpl.
  unfold loop_body at 1; simpl. by rewrite loop_after_header.
Qed.

Lemma extract_table_nil : extract_table {| rows := [] |} = Ok [].
Proof. reflexivity. Qed.

Lemma row_record_dom header row :
  dom (row_record header row)
  = (list_to_set (take (length (cells row)) (cell_texts header)) : gset string).
Proof.
  unfold row_record. by rewrite dom_dict, fst_zip_take, length_cell_texts.
Qed.

Lemma row_record_lookup header row i k v :
  cell_texts header !! i = Some k →
  cell_texts row !! i = Some v →
  (∀ j k', (i < j)%nat → (j < length (cells row))%nat →
     cell_texts header !! j = Some k' → k' ≠ k) →
  row_record header row !! k = Some v.
Proof.
  intros Hk Hv Hlater. unfold row_record.
  assert (Hz : zip (cell_texts header) (cell_texts row) !! i = Some (k, v)).
  { rewrite lookup_zip_with, Hk; simpl. by rewrite Hv. }
  apply take_drop_middle in Hz. rewrite <- Hz.
  apply dict_lookup_last. intros Hin.
  apply list_elem_of_lookup in Hin as [j Hj].
  rewrite list_lookup_fmap, lookup_drop in Hj.
  destruct (zip (cell_texts header) (cell_texts row) !! (S i + j)) as [[k' v']|] eqn:E;
    simplify_eq/=.
  rewrite lookup_zip_with in E.
  destruct (cell_texts header !! S (i + j)) as [k''|] eqn:E1; simplify_eq/=.
  destruct (cell_texts row !! S (i + j)) as [v''|] eqn:E2; simplify_eq/=.
  apply (Hlater (S (i + j)) k); [lia| |done..].
  apply lookup_lt_Some in E2. by rewrite length_cell_texts in E2.
Qed.

(** The loop ends without an exception on every table, the empty one
    included. *)
Lemma extract_table_never_raises (table : Table) :
  ∃ records, extract_table table = Ok records.
Proof.
  destruct table as [[|header body]].
  - exists []. apply extract_table_nil.
  - exists (row_record header <$> body). apply extract_table_cons.
Qed.

(** A header text that stands in two header cells is one key: the record
    keeps the value of the last cell that met it. *)
Example row_record_repeated_header :
  let header := {| cells := [ {| text := "a" |}; {| text := "b" |}; {| text := "a" |} ] |} in
  row_record header {| cells := [ {| text := "1" |}; {| text := "2" |}; {| text := "3" |} ] |}
    = dict [("a", "3"); ("b", "2")]
  ∧ row_record header {| cells := [ {| text := "1" |}; {| text := "2" |} ] |}
    = dict [("a", "1"); ("b", "2")].
Proof. split; apply map_eq; intros k; by vm_compute. Qed.

(** C7.  The first row of a table is taken as the header and never becomes
    a record; every later row is zipped against it into one record, in
    order.  A table of R rows (R at least 1) therefore gives exactly R - 1
    records, and the loop never raises. *)
Theorem docx_one_record_per_data_row header body :
  ∃ records,
    extract_table {| rows := header :: body |} = Ok records
    ∧ records = (λ row, dict (zip (cell_texts header) (cell_texts row))) <$> body
    ∧ (Z.of_nat (length records) = Z.of_nat (length (header :: body)) - 1)%Z.
Proof.
  exists (row_record header <$> body). split; [apply extract_table_cons|].
  split; [done|]. rewrite length_fmap. simpl. lia.
Qed.

(** C10.  Every record the loop produces has its keys among the header
    cell texts: they are exactly the texts of the header cells that met a
    cell of the row.  Cells of the row beyond the header's length are
    dropped without an error, and header cells beyond the row's length add
    no key, since [zip] stops at the shorter of the two. *)
Theorem docx_record_keys_from_header header body :
  ∃ records,
    extract_table {| rows := header :: body |} = Ok records
    ∧ Forall2 (λ row record,
        dom record ⊆ (list_to_set (cell_texts header) : gset string)
        ∧ dom record
          = (list_to_set (take (length (cells row)) (cell_texts header)) : gset string)
        ∧ record
          = dict (zip (cell_texts header) (take (length (cells header)) (cell_texts row)))
        ∧ record
          = dict (zip (take (length (cells row)) (cell_texts header)) (cell_texts row))
        ∧ (size record ≤ length (cells header) `min` length (cells row))%nat)
      body records.
Proof.
  exists (row_record header <$> body). split; [apply extract_table_cons|].
  apply Forall2_fmap_r, Forall_Forall2_diag, Forall_forall. intros row _.
  repeat split.
  - rewrite row_record_dom. intros k Hk.
    apply elem_of_list_to_set. apply elem_of_list_to_set in Hk.
    by apply (subseteq_take (length (cells row))).
  - apply row_record_dom.
  - unfold row_record. by rewrite <- length_cell_texts, zip_take_r.
  - unfold row_record. by rewrite <- length_cell_texts, zip_take_l.
  - unfold row_record. etrans; [apply size_dict|].
    by rewrite length_zip, !length_cell_texts.
Qed.
End DocxFacts.

(** ** The validators *)

Import Xml.

Section ValidatorFacts.
Context `{Lxml}.

(** [validate] raises exactly when one of its three library calls raises;
    otherwise it returns what [schema.validate] returned. *)
Lemma validate_unfold xml_path xsd_path :
  validate xml_path xsd_path =
    match etree_parse xsd_path default_parser with
    | Raise e => Raise e
    | Ok xmlschema_doc =>
        match etree_XMLSchema xmlschema_doc with
        | Raise e => Raise e
        | Ok xmlschema =>
            match etree_parse xml_path default_parser with
            | Raise e => Raise e
            | Ok xml_doc => Ok (XMLSchema_validate xmlschema xml_doc)
            end
        end
    end.
Proof.
  unfold validate, mbind, outcome_bind.
  destruct (etree_parse xsd_path default_parser) as [sd|e]; [|done].
  destruct (etree_XMLSchema sd) as [sc|e]; [|done].
  by destruct (etree_parse xml_path default_parser).
Qed.

Lemma validate_schema_unreadable xml_path xsd_path e :
  etree_parse xsd_path default_parser = Raise e →
  validate xml_path xsd_path = Raise e.
Proof. intros E. by rewrite validate_unfold, E. Qed.

Lemma validate_document_unreadable xml_path xsd_path xmlschema_doc xmlschema e :
  etree_parse xsd_path default_parser = Ok xmlschema_doc →
  etree_XMLSchema xmlschema_doc = Ok xmlschema →
  etree_parse xml_path default_parser = Raise e →
  validate xml_path xsd_path = Raise e.
Proof. intros E1 E2 E3. by rewrite validate_unfold, E1, E2, E3. Qed.


End ValidatorFacts.

(** *** The cells run on the in-memory files *)

Import InMemory.

(** On the in-memory files a document that lacks an element the schema
    requires is not valid, whatever else it holds. *)
Lemma in_memory_validate_missing_element files xml_path xsd_path sdoc s d name :
  parse files xsd_path default_parser = Ok sdoc →
  compile sdoc = Ok s →
  parse files xml_path default_parser = Ok d →
  name ∈ required s →
  name ∉ tag_of <$> children_of (root d) →
  @validate (lxml files) xml_path xsd_path = Ok false.
Proof.
  intros E1 E2 E3 Hreq Hmiss. rewrite validate_unfold. simpl. rewrite E1, E2, E3.
  f_equal. unfold conforms. apply andb_false_intro2, bool_decide_eq_false_2.
  intros Heq. apply Hmiss. by rewrite Heq.
Qed.

Example validate_on_in_memory_files :
  @validate (lxml data_folder) "dataset_snippet.xml" "data.xsd" = Ok true
  ∧ @validate (lxml data_folder) "dataset_snippet_without_key.xml" "data.xsd" = Ok false.
Proof. split; reflexivity. Qed.

Example validate_raises_on_text_file :
  @validate (lxml data_folder) "notes.txt" "data.xsd"
  = Raise (XMLSyntaxError "document is not well-formed").
Proof. reflexivity. Qed.

Example dtd_validation_silent_on_valid_document :
  @dtd_validation_result (lxml data_folder) "dataset_snippet_with_dtd.xml"
  = @Tree (lxml data_folder) {| dtd := Some row_dtd; root := full_row |}.
Proof. reflexivity. Qed.


(** ** The CSV export *)

Import Csv.

(** A field whose characters are neither the delimiter, the quote character
    nor part of the line terminator is written as it is. *)
Lemma write_field_verbatim delimiter quotechar lineterminator field :
  existsb (special delimiter quotechar lineterminator) (list_ascii_of_string field) = false →
  write_field delimiter quotechar lineterminator field = field.
Proof. unfold write_field. by intros ->. Qed.

(** With a line feed as line terminator a carriage return is no special
    character, a line feed is. *)
Lemma special_posix :
  special COMMA DQUOTE posix_linesep CR = false
  ∧ special COMMA DQUOTE posix_linesep LF = true.
Proof. split; reflexivity. Qed.

Lemma plain_text_cons c s : plain_text (String c s) ↔ plain c ∧ plain_text s.
Proof. unfold plain_text; simpl. apply Forall_cons. Qed.

Lemma append_nil_l s : EmptyString +:+ s = s.
Proof. reflexivity. Qed.

Lemma append_cons c s1 s2 : String c s1 +:+ s2 = String c (s1 +:+ s2).
Proof. reflexivity. Qed.

Lemma append_assoc s1 s2 s3 : (s1 +:+ s2) +:+ s3 = s1 +:+ s2 +:+ s3.
Proof. induction s1 as [|c s1 IH]; [done|]. by rewrite !append_cons, IH. Qed.

Lemma append_nil_r (s : string) : s +:+ EmptyString = s.
Proof. induction s as [|c s IH]; [done|]. by rewrite append_cons, IH. Qed.

Lemma split_records_plain_char c s :
  plain c → split_records false (String c s) = push c (split_records false s).
Proof.
  intros (Hq & _ & Hr & Hl). cbn [split_records]. by rewrite !decide_False.
Qed.

Lemma split_records_lf s :
  split_records false (String LF s) = EmptyString :: split_records false s.
Proof. reflexivity. Qed.

Lemma split_records_cr c s :
  c ≠ LF →
  split_records false (String CR (String c s))
  = EmptyString :: split_records false (String c s).
Proof.
  intros Hc.
  change (split_records false (String CR (String c s)))
    with (EmptyString :: (if decide (c = LF) then split_records false s
                          else split_records false (String c s))).
  by rewrite decide_False.
Qed.

Lemma special_posix_plain c : plain c → special COMMA DQUOTE posix_linesep c = false.
Proof.
  intros (Hq & Hc & _ & Hl). unfold special, posix_linesep; simpl.
  rewrite !bool_decide_eq_false_2; [done| |done..].
  by rewrite list_elem_of_singleton.
Qed.

Lemma existsb_special_plain b :
  plain_text b →
  existsb (special COMMA DQUOTE posix_linesep) (list_ascii_of_string b) = false.
Proof.
  induction b as [|c b IH]; [done|]. intros [Hc Hb]%plain_text_cons. simpl.
  rewrite special_posix_plain by done. by apply IH.
Qed.

Lemma existsb_special_cr a b :
  plain_text a → plain_text b →
  existsb (special COMMA DQUOTE posix_linesep) (list_ascii_of_string (a +:+ String CR b)) = false.
Proof.
  intros Ha Hb. induction a as [|c a IH].
  - rewrite append_nil_l. simpl. by apply existsb_special_plain.
  - apply plain_text_cons in Ha as [Hc Ha]. rewrite append_cons. simpl.
    rewrite special_posix_plain by done. by apply IH.
Qed.

Lemma write_field_cr_bare a b :
  plain_text a → plain_text b →
  write_field COMMA DQUOTE posix_linesep (a +:+ String CR b) = a +:+ String CR b.
Proof. intros Ha Hb. by apply write_field_verbatim, existsb_special_cr. Qed.

Lemma split_records_plain_line a rest :
  plain_text a →
  split_records false (a +:+ String LF rest) = a :: split_records false rest.
Proof.
  induction a as [|c a IH]; [done|]. intros [Hc Ha]%plain_text_cons.
  by rewrite append_cons, split_records_plain_char, IH.
Qed.

Lemma split_records_bare_cr a c rest :
  plain_text a → c ≠ LF →
  split_records false (a +:+ String CR (String c rest))
  = a :: split_records false (String c rest).
Proof.
  intros Ha Hc. induction a as [|c' a IH].
  - by rewrite append_nil_l, split_records_cr.
  - apply plain_text_cons in Ha as [Hc' Ha].
    by rewrite append_cons, split_records_plain_char, IH.
Qed.

(** Any row of one cell that holds a carriage return between two plain
    texts is written bare and read back as two records. *)
Lemma writerow_cr_read_as_two a c b :
  plain_text a → plain_text (String c b) →
  split_records false
    (writerow COMMA DQUOTE posix_linesep [a +:+ String CR (String c b)])
  = [a; String c b].
Proof.
  intros Ha Hb. unfold writerow. cbn [fmap list_fmap String.concat].
  rewrite write_field_cr_bare by done.
  assert (Hne : a +:+ String CR (String c b) ≠ EmptyString) by (by destruct a).
  destruct (a +:+ String CR (String c b)) eqn:E; [done|]. rewrite <- E.
  rewrite append_assoc, !append_cons.
  pose proof Hb as [(_ & _ & _ & Hl) _]%plain_text_cons.
  rewrite split_records_bare_cr by done.
  change (String c (b +:+ posix_linesep)) with (String c b +:+ String LF EmptyString).
  by rewrite split_records_plain_line.
Qed.

(** The same for a whole exported frame of one column. *)
Lemma to_csv_cr_cell_read_as_two h hs a c b :
  plain_text (String h hs) → plain_text a → plain_text (String c b) →
  records_read
    (to_csv posix_linesep
       {| columns := [String h hs]; values := [[a +:+ String CR (String c b)]] |})
  = [a; String c b].
Proof.
  intros Hh Ha Hb. unfold records_read, to_csv. cbn [columns values fmap list_fmap String.concat].
  rewrite append_nil_l.
  assert (Hrow : writerow COMMA DQUOTE posix_linesep [String h hs]
                 = String h hs +:+ String LF EmptyString).
  { unfold writerow. cbn [fmap list_fmap String.concat].
    by rewrite write_field_verbatim by (by apply existsb_special_plain). }
  rewrite Hrow, append_assoc, (append_cons LF), append_nil_l.
  rewrite split_records_plain_line by done. cbn [tail]. by apply writerow_cr_read_as_two.
Qed.


(** *** Frames without a carriage return *)

(** A field that holds a line feed is written between quotes. *)
Lemma write_field_quotes_line_feed field :
  LF ∈ list_ascii_of_string field →
  write_field COMMA DQUOTE posix_linesep field
  = String DQUOTE (double_quotes DQUOTE field +:+ String DQUOTE EmptyString).
Proof.
  intros Hlf. unfold write_field.
  assert (E : existsb (special COMMA DQUOTE posix_linesep) (list_ascii_of_string field)
              = true); [|by rewrite E].
  apply existsb_exists. exists LF. split; [by apply list_elem_of_In|reflexivity].
Qed.

Section RecordCount.
Implicit Types (s line rest field : string) (q : bool) (fields : list string).










End RecordCount.


(** ** The DOCX table: complete records, repeated headers, empty tables *)

Section DocxTableFacts.
Implicit Types (header row : Row) (body : list Row).

(** X1.  In a rectangular table whose header texts are all different,
    every record has exactly the header texts as keys, one per column, and
    under each of them the text of the row's cell in that column. *)
Theorem docx_rectangular_table header body :
  NoDup (cell_texts header) →
  Forall (λ row, length (cells row) = length (cells header)) body →
  ∃ records,
    extract_table {| rows := header :: body |} = Ok records
    ∧ Forall2 (λ row record,
        dom record = (list_to_set (cell_texts header) : gset string)
        ∧ size record = length (cells header)
        ∧ ∀ i k v, cell_texts header !! i = Some k → cell_texts row !! i = Some v →
                   record !! k = Some v)
      body records.
Proof.
  intros Hnodup Hrect.
  exists (row_record header <$> body). split; [apply extract_table_cons|].
  apply Forall2_fmap_r, Forall_Forall2_diag. eapply Forall_impl; [exact Hrect|].
  intros row Hlen. cbn beta in Hlen.
  assert (Hdom : dom (row_record header row)
                 = (list_to_set (cell_texts header) : gset string)).
  { rewrite row_record_dom, take_ge; [done|]. rewrite length_cell_texts. lia. }
  split; [done|]. split.
  - rewrite <- size_dom, Hdom, size_list_to_set by done. apply length_cell_texts.
  - intros i k v Hk Hv. apply (row_record_lookup header row i k v Hk Hv).
    intros j k' Hij _ Hk' ->.
    pose proof (NoDup_lookup _ _ _ _ Hnodup Hk Hk'). lia.
Qed.

(** X2.  When a header text stands in several header cells, the record
    keeps under it the cell of the last of these columns that the row
    reaches: a later assignment to the same key replaces the earlier one. *)
Theorem docx_repeated_header_keeps_last header body n row i k v :
  body !! n = Some row →
  cell_texts header !! i = Some k →
  cell_texts row !! i = Some v →
  (∀ j k', (i < j)%nat → (j < length (cells row))%nat →
     cell_texts header !! j = Some k' → k' ≠ k) →
  ∃ records record,
    extract_table {| rows := header :: body |} = Ok records
    ∧ records !! n = Some record
    ∧ record !! k = Some v.
Proof.
  intros Hrow Hk Hv Hlast.
  exists (row_record header <$> body), (row_record header row).
  split; [apply extract_table_cons|]. split.
  - by rewrite list_lookup_fmap, Hrow.
  - by apply (row_record_lookup header row i k v).
Qed.

(** X3.  The loop raises on no table: [zip] is never reached with
    [keys] still [None].  It returns no record exactly when the table has no
    row besides a header, the table without any row included. *)
Theorem docx_no_record_without_data_row (table : Table) :
  ∃ records,
    extract_table table = Ok records
    ∧ (records = [] ↔ (length (rows table) ≤ 1)%nat).
Proof.
  destruct table as [[|header body]].
  - exists []. split; [apply extract_table_nil|]. simpl. split; [lia|done].
  - exists (row_record header <$> body). split; [apply extract_table_cons|].
    simpl. destruct body; simpl; split; try done; lia.
Qed.
End DocxTableFacts.

Import Samples.

Lemma docx_rectangular_table_witness :
  ∃ records,
    extract_table {| rows := birds_header :: birds_body |} = Ok records
    ∧ Forall2 (λ row record,
        dom record = (list_to_set (cell_texts birds_header) : gset string)
        ∧ size record = length (cells birds_header)
        ∧ ∀ i k v, cell_texts birds_header !! i = Some k → cell_texts row !! i = Some v →
                   record !! k = Some v)
      birds_body records.
Proof.
  apply docx_rectangular_table.
  - apply NoDup_cons. split; [|apply NoDup_singleton].
    by rewrite list_elem_of_singleton.
  - repeat constructor.
Defined.

Lemma docx_repeated_header_keeps_last_witness :
  ∃ records record,
    extract_table {| rows := merged_header :: birds_body |} = Ok records
    ∧ records !! 1%nat = Some record
    ∧ record !! "name" = Some "Pica".
Proof.
  apply (docx_repeated_header_keeps_last merged_header birds_body 1
           {| cells := [ {| text := "ZMB_2" |}; {| text := "Pica" |} ] |} 1 "name" "Pica");
    try reflexivity.
  intros j k' Hij Hj. simpl in Hj. lia.
Defined.

(** ** The validation cell *)

Section ValidationCell.
Context `{Lxml}.

(** X4.  The validation cell prints a verdict only when the schema file was
    parsed and compiled and the document was parsed, and the verdict is
    then the one [schema.validate] gave: [Not valid!] never stands for a
    file that could not be read or parsed. *)
Theorem validation_cell_prints_verdict_iff xml_path xsd_path (b : bool) :
  validation_cell xml_path xsd_path = Ok [if b then "Valid!" else "Not valid!"]
  ↔ ∃ xmlschema_doc xmlschema xml_doc,
      etree_parse xsd_path default_parser = Ok xmlschema_doc
      ∧ etree_XMLSchema xmlschema_doc = Ok xmlschema
      ∧ etree_parse xml_path default_parser = Ok xml_doc
      ∧ XMLSchema_validate xmlschema xml_doc = b.
Proof.
  unfold validation_cell. rewrite validate_unfold.
  destruct (etree_parse xsd_path default_parser) as [sd|e] eqn:E1; simpl.
  2: { split; [done|]. intros (? & ? & ? & ? & _). congruence. }
  destruct (etree_XMLSchema sd) as [sc|e] eqn:E2; simpl.
  2: { split; [done|]. intros (? & ? & ? & [= <-] & ? & _). congruence. }
  destruct (etree_parse xml_path default_parser) as [doc|e] eqn:E3; simpl.
  2: { split; [done|]. intros (? & ? & ? & [= <-] & ? & ? & _). congruence. }
  split.
  - intros Hout. exists sd, sc, doc. split_and!; [done..|].
    destruct (XMLSchema_validate sc doc), b; (done || discriminate Hout).
  - intros (? & ? & ? & [= <-] & Hsc & [= <-] & <-).
    rewrite E2 in Hsc. by injection Hsc as <-.
Qed.
End ValidationCell.

(** ** Searching a text for a heading *)

Import Py.

Section StringSearch.
Implicit Types (sep s p before rest : string) (i : nat).

Lemma length_append s1 s2 :
  String.length (s1 +:+ s2) = (String.length s1 + String.length s2)%nat.
Proof. induction s1 as [|c s1 IH]; [done|]. rewrite append_cons. simpl. by rewrite IH. Qed.

Lemma strip_prefix_Some p s rest : strip_prefix p s = Some rest ↔ s = p +:+ rest.
Proof.
  revert s. induction p as [|a p IH]; intros s.
  - rewrite append_nil_l. simpl. split; congruence.
  - rewrite append_cons. destruct s as [|b s]; simpl; [done|].
    destruct (decide (a = b)) as [->|Hne].
    + rewrite IH. split; congruence.
    + split; [done|]. congruence.
Qed.

Lemma occurs_at_0 sep s : occurs_at sep 0 s ↔ ∃ rest, strip_prefix sep s = Some rest.
Proof.
  split.
  - intros (before & rest & -> & Hlen). destruct before; [|done].
    exists rest. by apply strip_prefix_Some.
  - intros [rest Hrest%strip_prefix_Some]. by exists EmptyString, rest.
Qed.

Lemma occurs_at_S sep c s i : occurs_at sep (S i) (String c s) ↔ occurs_at sep i s.
Proof.
  split.
  - intros (before & rest & Heq & Hlen). destruct before as [|c' before]; [done|].
    rewrite append_cons in Heq. simplify_eq/=. by exists before, rest.
  - intros (before & rest & -> & Hlen). exists (String c before), rest.
    rewrite append_cons. simpl. by rewrite Hlen.
Qed.

Lemma occurs_at_nil sep i : sep ≠ EmptyString → ¬ occurs_at sep i EmptyString.
Proof.
  intros Hsep (before & rest & Heq & _). destruct before; [|done].
  rewrite append_nil_l in Heq. by destruct sep.
Qed.

Lemma find_split_sound sep s before rest :
  find_split sep s = Some (before, rest) → s = before +:+ sep +:+ rest.
Proof.
  revert before. induction s as [|c s IH]; intros before; simpl.
  - destruct (strip_prefix sep EmptyString) as [r|] eqn:E; [|done].
    intros [= <- <-]. by apply strip_prefix_Some in E.
  - destruct (strip_prefix sep (String c s)) as [r|] eqn:E.
    + intros [= <- <-]. by apply strip_prefix_Some in E.
    + destruct (find_split sep s) as [[b r]|]; [|done].
      intros [= <- <-]. rewrite append_cons. f_equal. by apply IH.
Qed.

Lemma find_split_leftmost sep s before rest :
  find_split sep s = Some (before, rest) →
  ∀ i, (i < String.length before)%nat → ¬ occurs_at sep i s.
Proof.
  revert before. induction s as [|c s IH]; intros before; simpl.
  - destruct (strip_prefix sep EmptyString) as [r|]; [|done].
    intros [= <- <-] i Hi. simpl in Hi. lia.
  - destruct (strip_prefix sep (String c s)) as [r|] eqn:E.
    + intros [= <- <-] i Hi. simpl in Hi. lia.
    + destruct (find_split sep s) as [[b r]|] eqn:Es; [|done].
      intros [= <- <-] [|i] Hi.
      * rewrite occurs_at_0, E. by intros [? ?].
      * rewrite occurs_at_S. apply (IH b); [done|]. simpl in Hi. lia.
Qed.

Lemma find_split_complete sep before rest :
  (∀ i, (i < String.length before)%nat → ¬ occurs_at sep i (before +:+ sep +:+ rest)) →
  find_split sep (before +:+ sep +:+ rest) = Some (before, rest).
Proof.
  induction before as [|c before IH]; intros Hleft.
  - rewrite append_nil_l.
    assert (E : strip_prefix sep (sep +:+ rest) = Some rest) by by apply strip_prefix_Some.
    destruct (sep +:+ rest); simpl in *; by rewrite E.
  - rewrite append_cons. simpl.
    destruct (strip_prefix sep (String c (before +:+ sep +:+ rest))) as [r|] eqn:E.
    + exfalso. apply (Hleft 0%nat); [simpl; lia|].
      rewrite append_cons. apply occurs_at_0. eauto.
    + rewrite IH; [done|]. intros i Hi Hocc.
      apply (Hleft (S i)); [simpl; lia|]. rewrite append_cons. by apply occurs_at_S.
Qed.

Lemma find_split_is_Some sep s : is_Some (find_split sep s) ↔ occurs sep s.
Proof.
  split.
  - intros [[before rest] E]. apply find_split_sound in E.
    by exists (String.length before), before, rest.
  - intros [i Hi]. revert s Hi. induction i as [|i IH]; intros s Hi.
    + apply occurs_at_0 in Hi as [rest E].
      destruct s; simpl; rewrite E; eauto.
    + destruct s as [|c s].
      { destruct Hi as (before & rest & Heq & Hlen). by destruct before. }
      apply occurs_at_S, IH in Hi as [[b r] E]. simpl.
      destruct (strip_prefix sep (String c s)); [eauto|]. rewrite E. eauto.
Qed.

Lemma find_split_None sep s : find_split sep s = None ↔ ¬ occurs sep s.
Proof.
  rewrite <- find_split_is_Some, eq_None_not_Some. done.
Qed.

(** An occurrence that lies within the text before the leftmost one would
    itself be further left. *)
Lemma find_split_before_free sep s before rest :
  sep ≠ EmptyString →
  find_split sep s = Some (before, rest) → ¬ occurs sep before.
Proof.
  intros Hsep E [i (b & r & Hb & Hlen)].
  pose proof (find_split_sound _ _ _ _ E) as Hs.
  apply (find_split_leftmost _ _ _ _ E i).
  - rewrite Hb, !length_append. destruct sep; [done|]. simpl. lia.
  - exists b, (r +:+ sep +:+ rest). split; [|done].
    by rewrite Hs, Hb, !append_assoc.
Qed.
End StringSearch.

(** ** The dataset description cut out of the text *)

Import Txt.

Section DatasetDescription.
Implicit Types (content before rest : string).

Lemma split1_found s sep before rest :
  sep ≠ EmptyString → find_split sep s = Some (before, rest) →
  split1 s sep = Returns [before; rest].
Proof. intros Hsep E. unfold split1. by rewrite decide_False, E. Qed.

Lemma split1_missing s sep :
  sep ≠ EmptyString → find_split sep s = None → split1 s sep = Returns [s].
Proof. intros Hsep E. unfold split1. by rewrite decide_False, E. Qed.

(** The cell in terms of the two searches. *)
Lemma dataset_description_unfold content :
  dataset_description content =
    match find_split "Dataset Description" content with
    | None => Raises (IndexError "list index out of range")
    | Some (_, words_after_heading1) =>
        match find_split "Keywords" words_after_heading1 with
        | Some (words_before_heading2, _) => Returns words_before_heading2
        | None => Returns words_after_heading1
        end
    end.
Proof.
  unfold dataset_description, partition, split1.
  rewrite !decide_False by done.
  destruct (find_split "Dataset Description" content) as [[a r]|]; [|done].
  cbn [mbind run_bind getitem lookup list_lookup].
  rewrite !decide_False by done.
  by destruct (find_split "Keywords" r) as [[b t]|].
Qed.

(** X5.  The cell raises [IndexError] exactly when the heading
    [Dataset Description] stands nowhere in the text (the second item of the
    one-item list [split] returns is missing); when the heading is there,
    the cell returns a text, whether or not [Keywords] follows. *)
Theorem dataset_description_needs_first_heading content :
  (¬ occurs "Dataset Description" content
   ∧ dataset_description content = Raises (IndexError "list index out of range"))
  ∨ (occurs "Dataset Description" content
     ∧ ∃ words_before_heading2, dataset_description content = Returns words_before_heading2).
Proof.
  rewrite dataset_description_unfold.
  destruct (find_split "Dataset Description" content) as [[a r]|] eqn:E.
  - right. split; [apply find_split_is_Some; eauto|].
    destruct (find_split "Keywords" r) as [[b t]|]; eauto.
  - left. split; [by apply find_split_None|done].
Qed.

(** X6.  What the cell returns starts right behind the leftmost
    [Dataset Description], holds no [Keywords], and ends either at the first
    [Keywords] behind that heading or, when there is none, at the end of the
    text. *)
Theorem dataset_description_returns content words_before_heading2 :
  dataset_description content = Returns words_before_heading2 →
  ∃ before rest,
    content = before +:+ "Dataset Description" +:+ words_before_heading2 +:+ rest
    ∧ (∀ i, (i < String.length before)%nat → ¬ occurs_at "Dataset Description" i content)
    ∧ ¬ occurs "Keywords" words_before_heading2
    ∧ (rest = EmptyString ∨ ∃ rest', rest = "Keywords" +:+ rest').
Proof.
  rewrite dataset_description_unfold.
  destruct (find_split "Dataset Description" content) as [[a r]|] eqn:E; [|done].
  pose proof (find_split_sound _ _ _ _ E) as Hc.
  pose proof (find_split_leftmost _ _ _ _ E) as Hleft.
  destruct (find_split "Keywords" r) as [[b t]|] eqn:E2; intros [= <-].
  - exists a, ("Keywords" +:+ t). repeat split; [|done| |eauto].
    + by rewrite Hc, (find_split_sound _ _ _ _ E2).
    + eapply find_split_before_free; [|exact E2]. done.
  - exists a, EmptyString. repeat split; [|done| |eauto].
    + by rewrite append_nil_r.
    + by apply find_split_None.
Qed.

(** X7.  For a text in which [before] runs up to the leftmost
    [Dataset Description] and [description] runs from there up to the next
    [Keywords], the cell returns [description], untrimmed. *)
Theorem dataset_description_between_headings before description rest :
  let content := before +:+ "Dataset Description" +:+ description +:+ "Keywords" +:+ rest in
  (∀ i, (i < String.length before)%nat → ¬ occurs_at "Dataset Description" i content) →
  (∀ i, (i < String.length description)%nat →
     ¬ occurs_at "Keywords" i (description +:+ "Keywords" +:+ rest)) →
  dataset_description content = Returns description.
Proof.
  intros content H1 H2. rewrite dataset_description_unfold. unfold content.
  rewrite find_split_complete by done. by rewrite find_split_complete.
Qed.
End DatasetDescription.

Lemma dataset_description_returns_witness :
  ∃ before rest,
    sample_text = before +:+ "Dataset Description" +:+ " Mounted specimens. " +:+ rest
    ∧ (∀ i, (i < String.length before)%nat → ¬ occurs_at "Dataset Description" i sample_text)
    ∧ ¬ occurs "Keywords" " Mounted specimens. "
    ∧ (rest = EmptyString ∨ ∃ rest', rest = "Keywords" +:+ rest').
Proof. apply (dataset_description_returns sample_text " Mounted specimens. "). reflexivity. Defined.

Lemma dataset_description_between_headings_witness :
  dataset_description sample_text = Returns " Mounted specimens. ".
Proof.
  apply (dataset_description_between_headings
           "Birds of Berlin. " " Mounted specimens. " " bird, museum").
  - apply (find_split_leftmost "Dataset Description" sample_text "Birds of Berlin. "
             " Mounted specimens. Keywords bird, museum"). reflexivity.
  - apply (find_split_leftmost "Keywords" " Mounted specimens. Keywords bird, museum"
             " Mounted specimens. " " bird, museum"). reflexivity.
Defined.

(** ** The text of the DOCX document *)

Import DocxText.

Section DocxTextFacts.
Implicit Types (content : list block) (texts : list string).

Lemma mapM_block_text_paragraphs texts :
  mapM block_text (Paragraph <$> texts) = Returns texts.
Proof.
  induction texts as [|t texts IH]; [done|].
  cbn [fmap list_fmap mapM block_text mbind run_bind] in *. by rewrite IH.
Qed.

Lemma mapM_block_text_table content :
  Exists (λ b, ∃ table, b = TableBlock table) content →
  mapM block_text content
  = Raises (AttributeError "'Table' object has no attribute 'text'").
Proof.
  induction 1 as [b l [table ->]|b l _ IH]; [done|].
  destruct b as [t|table]; [|done].
  cbn [mapM block_text mbind run_bind] in *. by rewrite IH.
Qed.

Lemma paragraphs_or_table content :
  (∃ texts, content = Paragraph <$> texts)
  ∨ Exists (λ b, ∃ table, b = TableBlock table) content.
Proof.
  induction content as [|b l [[texts ->]|IH]].
  - left. by exists [].
  - destruct b as [t|table].
    + left. by exists (t :: texts).
    + right. apply Exists_cons_hd. eauto.
  - right. by apply Exists_cons_tl.
Qed.

Lemma text_content_unfold content :
  text_content content =
    match content !! 17%nat with
    | None =>
        Raises (IndexError (match content with
                            | [] => "pop from empty list"
                            | _ :: _ => "pop index out of range"
                            end))
    | Some _ =>
        texts ← mapM block_text (delete 17%nat content);
        Returns (join (String Csv.LF EmptyString) texts)
    end.
Proof.
  unfold text_content, pop. destruct content as [|b content]; [done|].
  by destruct ((b :: content) !! 17%nat).
Qed.

(** X8.  The three text cells have three outcomes.  A document of at
    most 17 blocks ends in [IndexError] at [pop(17)]: "pop from empty list"
    for a document without blocks, "pop index out of range" for the others.
    A longer document in which a table stands anywhere but at position 17
    ends in [AttributeError] at the join.  Otherwise the result is the texts
    of all blocks but the one at position 17, in order, one per line. *)
Theorem text_content_cases content :
  (content = []
   ∧ text_content content = Raises (IndexError "pop from empty list"))
  ∨ ((0 < length content ≤ 17)%nat
     ∧ text_content content = Raises (IndexError "pop index out of range"))
  ∨ ((17 < length content)%nat
     ∧ Exists (λ b, ∃ table, b = TableBlock table) (delete 17%nat content)
     ∧ text_content content
       = Raises (AttributeError "'Table' object has no attribute 'text'"))
  ∨ ((17 < length content)%nat
     ∧ ∃ texts, delete 17%nat content = Paragraph <$> texts
       ∧ text_content content = Returns (join (String Csv.LF EmptyString) texts)).
Proof.
  rewrite text_content_unfold.
  destruct (content !! 17%nat) as [b|] eqn:E.
  - apply lookup_lt_Some in E. right. right.
    destruct (paragraphs_or_table (delete 17%nat content)) as [[texts Ht]|Ht].
    + right. split; [done|]. exists texts. split; [done|].
      by rewrite Ht, mapM_block_text_paragraphs.
    + left. split; [done|]. split; [done|]. by rewrite mapM_block_text_table.
  - apply lookup_ge_None in E. destruct content as [|b content].
    + by left.
    + right. left. split; [simpl in *; lia|done].
Qed.

(** X9.  The block at position 17 never reaches the text, whatever it
    is: a paragraph standing there is dropped as silently as the table the
    cell expects. *)
Theorem text_content_ignores_block_17 content b :
  text_content (<[17%nat := b]> content) = text_content content.
Proof.
  destruct (decide (17 < length content)%nat) as [Hlt|Hge].
  - rewrite !text_content_unfold.
    rewrite list_lookup_insert_eq by done.
    destruct (lookup_lt_is_Some_2 content 17%nat Hlt) as [b' ->].
    rewrite !delete_take_drop, take_insert_ge, drop_insert_lt by lia. done.
  - by rewrite list_insert_ge by lia.
Qed.
End DocxTextFacts.

Section JoinedParagraphs.
Implicit Types (sep : string) (l pre body post : list string).

Lemma join_cons_cons sep x y l : join sep (x :: y :: l) = x +:+ sep +:+ join sep (y :: l).
Proof. reflexivity. Qed.

Lemma join_middle sep pre x post :
  join sep (pre ++ x :: post)
  = join sep (pre ++ [EmptyString]) +:+ x +:+ join sep (EmptyString :: post).
Proof.
  induction pre as [|y pre IH].
  - cbn [app]. destruct post as [|z post].
    + cbn [join String.concat]. by rewrite append_nil_l, append_nil_r.
    + by rewrite !join_cons_cons, !append_nil_l.
  - cbn [app].
    destruct pre as [|y' pre].
    + cbn [app] in *. by rewrite !join_cons_cons, IH, !append_nil_l, !append_assoc.
    + cbn [app] in *. by rewrite !join_cons_cons, IH, !append_assoc.
Qed.

(** X10.  On the text the joining cell makes of the paragraphs, with the
    two headings as paragraphs of their own and leftmost in the sense of
    X7, the description cell returns the paragraphs between the headings,
    each ended by a line feed, behind the line feed that ended the heading. *)
Theorem dataset_description_of_joined_paragraphs pre body post :
  let lf := String Csv.LF EmptyString in
  let content := join lf (pre ++ "Dataset Description" :: body ++ "Keywords" :: post) in
  let description := join lf (EmptyString :: body ++ [EmptyString]) in
  (∀ i, (i < String.length (join lf (pre ++ [EmptyString])))%nat →
     ¬ occurs_at "Dataset Description" i content) →
  (∀ i, (i < String.length description)%nat →
     ¬ occurs_at "Keywords" i
         (description +:+ "Keywords" +:+ join lf (EmptyString :: post))) →
  dataset_description content = Returns description.
Proof.
  intros lf content description H1 H2.
  assert (Hc : content
    = join lf (pre ++ [EmptyString]) +:+ "Dataset Description" +:+ description
      +:+ "Keywords" +:+ join lf (EmptyString :: post)).
  { unfold content, description. rewrite join_middle. do 2 f_equal.
    by rewrite app_comm_cons, join_middle. }
  rewrite Hc in *. by apply dataset_description_between_headings.
Qed.
End JoinedParagraphs.

Lemma dataset_description_of_joined_paragraphs_witness :
  dataset_description
    (join (String Csv.LF EmptyString)
       (["Birds of Berlin"] ++ "Dataset Description" :: ["Mounted specimens."; "Photographed."]
          ++ "Keywords" :: ["bird, museum"]))
  = Returns (join (String Csv.LF EmptyString)
       (EmptyString :: ["Mounted specimens."; "Photographed."] ++ [EmptyString])).
Proof.
  apply (dataset_description_of_joined_paragraphs ["Birds of Berlin"]
           ["Mounted specimens."; "Photographed."] ["bird, museum"]).
  - eapply find_split_leftmost. reflexivity.
  - eapply find_split_leftmost. reflexivity.
Defined.

(** ** The unique catalogue identifiers *)

Import Json.

Section JsonFacts.
Implicit Types (els ids : list value) (members : list member).

Lemma append_catalogue_id_found acc el v :
  subscript el "catalogue_id" = Returns v →
  append_catalogue_id acc el = Returns (acc ++ [v])%list.
Proof. intros Hv. unfold append_catalogue_id. by rewrite Hv. Qed.

Lemma append_catalogue_id_missing acc items :
  dict_get "catalogue_id" items = None →
  append_catalogue_id acc (JDict items) = Raises (KeyError "catalogue_id").
Proof. intros Hnone. unfold append_catalogue_id, subscript. by rewrite Hnone. Qed.

Lemma loop_append_all els ids acc :
  Forall2 (λ el v, subscript el "catalogue_id" = Returns v) els ids →
  loop append_catalogue_id acc els = Returns (acc ++ ids)%list.
Proof.
  intros H. revert acc. induction H as [|el v els ids Hv _ IH]; intros acc.
  - simpl. by rewrite app_nil_r.
  - cbn [loop]. rewrite (append_catalogue_id_found _ _ _ Hv).
    cbn [mbind run_bind]. rewrite IH. by rewrite <- app_assoc.
Qed.

Lemma loop_append_key_error pre items post acc :
  Forall (λ el, ∃ v, subscript el "catalogue_id" = Returns v) pre →
  dict_get "catalogue_id" items = None →
  loop append_catalogue_id acc (pre ++ JDict items :: post)
  = Raises (KeyError "catalogue_id").
Proof.
  intros H Hnone. revert acc. induction H as [|el pre [v Hv] _ IH]; intros acc.
  - cbn [app loop]. by rewrite (append_catalogue_id_missing _ _ Hnone).
  - cbn [app loop]. rewrite (append_catalogue_id_found _ _ _ Hv).
    cbn [mbind run_bind]. apply IH.
Qed.

Lemma mapM_hashed ids members :
  Forall2 (λ v m, hashed v = Returns m) ids members →
  mapM hashed ids = Returns members.
Proof.
  induction 1 as [|v m ids members Hm _ IH]; [done|].
  cbn [mapM mbind run_bind] in *. by rewrite Hm, IH.
Qed.

Lemma size_list_to_set_le members :
  (size (list_to_set members : gset member) ≤ length members)%nat.
Proof.
  induction members as [|m members IH].
  - by rewrite list_to_set_nil, size_empty.
  - rewrite list_to_set_cons, size_union_alt, size_singleton.
    assert (size ((list_to_set members : gset member) ∖ {[m]})
            ≤ size (list_to_set members : gset member))%nat
      by (apply subseteq_size, subseteq_difference_l; reflexivity).
    simpl. lia.
Qed.

Lemma size_list_to_set_NoDup members :
  size (list_to_set members : gset member) = length members ↔ NoDup members.
Proof.
  split; [|apply size_list_to_set].
  induction members as [|m members IH]; intros Hsize; [constructor|].
  rewrite list_to_set_cons in Hsize. cbn [length] in Hsize.
  pose proof (size_list_to_set_le members) as Hle.
  destruct (decide (m ∈ members)) as [Hin|Hnin].
  - exfalso.
    assert (Heq : ({[m]} ∪ list_to_set members : gset member) = list_to_set members).
    { apply subseteq_union_1_L, singleton_subseteq_l, elem_of_list_to_set, Hin. }
    rewrite Heq in Hsize. lia.
  - constructor; [done|]. apply IH.
    rewrite size_union, size_singleton in Hsize; [lia|].
    apply disjoint_singleton_l. by rewrite elem_of_list_to_set.
Qed.

Lemma unique_catalogue_ids_list els :
  unique_catalogue_ids (JList els) =
    cat_id_list ← loop append_catalogue_id [] els;
    members ← mapM hashed cat_id_list;
    Returns (length (elements (list_to_set members : gset member))).
Proof. reflexivity. Qed.

(** X11.  When the data is a list whose elements all have a hashable
    [catalogue_id], the cell prints the number of different identifiers:
    at most the number of elements, equal to it exactly when no identifier
    comes twice, and zero exactly when the list is empty. *)
Theorem unique_catalogue_ids_counts els ids members :
  Forall2 (λ el v, subscript el "catalogue_id" = Returns v) els ids →
  Forall2 (λ v m, hashed v = Returns m) ids members →
  ∃ n, unique_catalogue_ids (JList els) = Returns n
    ∧ n = size (list_to_set members : gset member)
    ∧ (n ≤ length els)%nat
    ∧ (n = length els ↔ NoDup members)
    ∧ (n = 0%nat ↔ els = []).
Proof.
  intros Hids Hmem.
  pose proof (Forall2_length _ _ _ Hids) as Hl1.
  pose proof (Forall2_length _ _ _ Hmem) as Hl2.
  exists (size (list_to_set members : gset member)).
  split; [|split; [done|]].
  { rewrite unique_catalogue_ids_list, (loop_append_all _ _ _ Hids).
    cbn [app mbind run_bind]. by rewrite (mapM_hashed _ _ Hmem). }
  split; [rewrite Hl1, Hl2; apply size_list_to_set_le|].
  split; [rewrite Hl1, Hl2; apply size_list_to_set_NoDup|].
  split.
  - intros Hsize%size_empty_inv. destruct members as [|m members].
    + destruct ids; [|done]. by destruct els.
    + exfalso. apply (not_elem_of_empty (C := gset member) m).
      rewrite <- (leibniz_equiv _ _ Hsize). apply elem_of_list_to_set. left.
  - intros ->. destruct ids; [|done]. by destruct members.
Qed.

(** X12.  The first object without a [catalogue_id] ends the cell in
    [KeyError], whatever follows it; nothing is printed. *)
Theorem unique_catalogue_ids_key_error pre items post :
  Forall (λ el, ∃ v, subscript el "catalogue_id" = Returns v) pre →
  dict_get "catalogue_id" items = None →
  unique_catalogue_ids (JList (pre ++ JDict items :: post))
  = Raises (KeyError "catalogue_id").
Proof.
  intros Hpre Hnone.
  by rewrite unique_catalogue_ids_list, (loop_append_key_error _ _ _ _ Hpre Hnone).
Qed.

Lemma dict_keys_cons k v items : dict_keys ((k, v) :: items) [] = k :: dict_keys items [k].
Proof.
  cbn [dict_keys]. destruct (decide (k ∈ [])) as [Hin|_]; [|done].
  by apply elem_of_nil in Hin.
Qed.

(** X13.  When the data is not a list: an empty object or an empty string
    prints 0, a non-empty object or string ends in [TypeError] at the first
    subscript (the loop runs over keys or characters), and [None], a
    boolean or an integer ends in the [TypeError] that names its type,
    before the loop starts. *)
Theorem unique_catalogue_ids_not_a_list :
  (∀ items, unique_catalogue_ids (JDict items) =
     match items with
     | [] => Returns 0%nat
     | _ :: _ => Raises (TypeError "string indices must be integers, not 'str'")
     end)
  ∧ (∀ s, unique_catalogue_ids (JStr s) =
     match s with
     | EmptyString => Returns 0%nat
     | String _ _ => Raises (TypeError "string indices must be integers, not 'str'")
     end)
  ∧ unique_catalogue_ids JNone
    = Raises (TypeError "'NoneType' object is not iterable")
  ∧ (∀ b, unique_catalogue_ids (JBool b)
          = Raises (TypeError "'bool' object is not iterable"))
  ∧ (∀ n, unique_catalogue_ids (JInt n)
          = Raises (TypeError "'int' object is not iterable")).
Proof.
  repeat split.
  - intros [|[k v] items]; [done|].
    unfold unique_catalogue_ids. cbn [iterate mbind run_bind]. by rewrite dict_keys_cons.
  - by intros [|c s].
Qed.
End JsonFacts.

Lemma unique_catalogue_ids_counts_witness :
  ∃ n, unique_catalogue_ids (JList three_images) = Returns n
    ∧ n = size (list_to_set [MStr "ZMB_1"; MStr "ZMB_1"; MStr "ZMB_2"] : gset member)
    ∧ (n ≤ length three_images)%nat
    ∧ (n = length three_images ↔ NoDup [MStr "ZMB_1"; MStr "ZMB_1"; MStr "ZMB_2"])
    ∧ (n = 0%nat ↔ three_images = []).
Proof.
  apply (unique_catalogue_ids_counts three_images [JStr "ZMB_1"; JStr "ZMB_1"; JStr "ZMB_2"]);
    repeat constructor.
Defined.

Lemma unique_catalogue_ids_key_error_witness :
  unique_catalogue_ids
    (JList ([JDict [("catalogue_id", JStr "ZMB_1")]]
            ++ JDict [("key", JStr "b")] :: [JDict [("catalogue_id", JStr "ZMB_2")]]))
  = Raises (KeyError "catalogue_id").
Proof.
  apply unique_catalogue_ids_key_error.
  - repeat constructor. by exists (JStr "ZMB_1").
  - reflexivity.
Defined.
